(** * A shallow embedding of the containers of @7urtle/lambda

    Sources: src/src/Maybe.js, src/src/Either.js, src/src/SyncEffect.js,
    src/src/AsyncEffect.js and conditional.js (src/unnamed/part_004). *)

From Stdlib Require Import List String ZArith Lia Bool DecimalString Permutation.
From Stdlib Require Import FunctionalExtensionality.
Import ListNotations.
Open Scope string_scope.
#[local] Set Warnings "-register-all".

(** ** JavaScript values

    The values the predicates of conditional.js inspect.  Numbers are kept
    integral; a function value records the number of parameters it declares
    (its [length] property) and a name; an object records its own
    string-keyed properties in definition order. *)
Inductive val : Type :=
| VUndefined
| VNull
| VBool (b : bool)
| VNum (n : Z)
| VStr (s : string)
| VArr (xs : list val)
| VObj (props : list (string * val))
| VFun (arity : nat) (name : string).

(** [typeof]: utils.js [typeOf = a => typeof a]. *)
Definition typeOf (v : val) : string :=
  match v with
  | VUndefined => "undefined"
  | VNull => "object"
  | VBool _ => "boolean"
  | VNum _ => "number"
  | VStr _ => "string"
  | VArr _ => "object"
  | VObj _ => "object"
  | VFun _ _ => "function"
  end.

(** Property read [o[k]] on an object with own properties [props]. *)
Fixpoint get_prop (k : string) (props : list (string * val)) : val :=
  match props with
  | [] => VUndefined
  | (k', v) :: rest => if String.eqb k k' then v else get_prop k rest
  end.

(** utils.js [lengthOf = a => a.length].  Reading a property of [null] or
    [undefined] throws a TypeError ([None]); numbers and booleans have no
    [length] ([undefined]). *)
Definition lengthOf (v : val) : option val :=
  match v with
  | VUndefined | VNull => None
  | VBool _ | VNum _ => Some VUndefined
  | VStr s => Some (VNum (Z.of_nat (String.length s)))
  | VArr xs => Some (VNum (Z.of_nat (List.length xs)))
  | VObj props => Some (get_prop "length" props)
  | VFun n _ => Some (VNum (Z.of_nat n))
  end.

(** Strict equality [a === 0] against the number zero. *)
Definition is_zero (v : val) : bool :=
  match v with VNum n => Z.eqb n 0 | _ => false end.

(** [Object.getOwnPropertyNames]: an array owns its indices and [length]. *)
Definition getOwnPropertyNames (v : val) : list string :=
  match v with
  | VArr xs =>
      map (fun i => NilEmpty.string_of_uint (Nat.to_uint i)) (seq 0 (List.length xs))
      ++ ["length"]
  | VObj props => map fst props
  | _ => []
  end.

Definition isNull (v : val) : bool :=
  match v with VNull => true | _ => false end.

Definition isUndefined (v : val) : bool := String.eqb (typeOf v) "undefined".

Definition isObject (v : val) : bool := String.eqb (typeOf v) "object".

(** [isLength(0)(b) = isEqual(lengthOf(b))(0)]; throws where [lengthOf] does. *)
Definition isLength0 (v : val) : option bool :=
  match lengthOf v with
  | Some l => Some (is_zero l)
  | None => None
  end.

(** conditional.js:
    [isEmpty = anything => isLength(0)(anything) ||
       (isObject(anything) ? isLength(0)(Object.getOwnPropertyNames(anything)) : false)] *)
Definition isEmpty (v : val) : option bool :=
  match isLength0 v with
  | None => None
  | Some true => Some true
  | Some false =>
      Some (if isObject v
            then Nat.eqb (List.length (getOwnPropertyNames v)) 0
            else false)
  end.

(** conditional.js:
    [isNothing = anything => isNull(anything) || isUndefined(anything) || isEmpty(anything)] *)
Definition isNothing (v : val) : option bool :=
  if isNull v then Some true
  else if isUndefined v then Some true
  else isEmpty v.

(** ** Maybe (Maybe.js) *)
Inductive maybe : Type :=
| Nothing
| Just (value : val).

(** The [value] field: [Nothing.value] is [null]. *)
Definition maybe_value (m : maybe) : val :=
  match m with Nothing => VNull | Just v => v end.

Definition maybe_isNothing (m : maybe) : bool :=
  match m with Nothing => true | Just _ => false end.

(** [Maybe.of = value => isNothing(value) ? Nothing : Just(value)]; [None]
    when [isNothing] throws. *)
Definition Maybe_of (v : val) : option maybe :=
  match isNothing v with
  | Some true => Some Nothing
  | Some false => Some (Just v)
  | None => None
  end.

(** The classification the spec sentence of C1 describes. *)
Definition spec_absent (v : val) : bool :=
  match v with
  | VNull | VUndefined => true
  | VStr s => String.eqb s ""
  | VArr xs => match xs with [] => true | _ => false end
  | VObj props => match props with [] => true | _ => false end
  | _ => false
  end.

(** The classification [isNothing] implements: [isEmpty] tests the [length]
    property of any value, so a function declaring no parameter and an object
    whose [length] is [0] are classified absent too. *)
Definition length_absent (v : val) : bool :=
  match v with
  | VNull | VUndefined => true
  | VStr s => String.eqb s ""
  | VArr xs => match xs with [] => true | _ => false end
  | VObj props => is_zero (get_prop "length" props) || match props with [] => true | _ => false end
  | VFun n _ => Nat.eqb n 0
  | VBool _ | VNum _ => false
  end.

(** ** Effects of a JavaScript call

    A call may read and write the program state [St] and may throw a value;
    a throw keeps the writes made before it. *)
Inductive outcome (A : Type) : Type :=
| Ok (a : A)
| Throw (e : val).
Arguments Ok {A} a.
Arguments Throw {A} e.

Definition M (St A : Type) : Type := St -> outcome A * St.

Definition ret {St A} (a : A) : M St A := fun s => (Ok a, s).

Definition bind {St A B} (m : M St A) (k : A -> M St B) : M St B :=
  fun s => match m s with
           | (Ok a, s') => k a s'
           | (Throw e, s') => (Throw e, s')
           end.

Definition throw {St A} (e : val) : M St A := fun s => (Throw e, s).

(** [try { m } catch (error) { h(error) }] *)
Definition catch {St A} (m : M St A) (h : val -> M St A) : M St A :=
  fun s => match m s with
           | (Ok a, s') => (Ok a, s')
           | (Throw e, s') => h e s'
           end.

Notation "x <- m ;; k" := (bind m (fun x => k))
  (at level 61, m at next level, right associativity).

(** A [TypeError] raised by the runtime. *)
Definition TypeError : val := VStr "TypeError".

Definition lift_option {St A} (o : option A) : M St A :=
  match o with Some a => ret a | None => throw TypeError end.

(** core.js [identity = anything => anything]. *)
Definition identity {St} (v : val) : M St val := ret v.

Section MaybeMethods.
Context {St : Type}.
(** Calling a function value [fv] with argument [x]. *)
Variable apply : val -> val -> M St val.

(** [Nothing.map = () => Nothing], [Just(value).map = fn => Maybe.of(fn(value))] *)
Definition maybe_map (m : maybe) (fn : val -> M St val) : M St maybe :=
  match m with
  | Nothing => ret Nothing
  | Just v => r <- fn v ;; lift_option (Maybe_of r)
  end.

(** [Nothing.flatMap = () => Nothing], [Just(value).flatMap = fn => fn(value)] *)
Definition maybe_flatMap (m : maybe) (fn : val -> M St maybe) : M St maybe :=
  match m with
  | Nothing => ret Nothing
  | Just v => fn v
  end.

(** [Nothing.ap = () => Nothing], [Just(value).ap = f => f.map(value)] *)
Definition maybe_ap (m : maybe) (f : maybe) : M St maybe :=
  match m with
  | Nothing => ret Nothing
  | Just fv => maybe_map f (apply fv)
  end.
End MaybeMethods.

(** ** Either (Either.js) *)
Inductive either (A : Type) : Type :=
| Failure (value : A)
| Success (value : A).
Arguments Failure {A} value.
Arguments Success {A} value.

Definition either_value {A} (e : either A) : A :=
  match e with Failure v => v | Success v => v end.

Definition isFailure {A} (e : either A) : bool :=
  match e with Failure _ => true | Success _ => false end.

(** [Either.of = value => Success(value)] *)
Definition Either_of {A} (v : A) : either A := Success v.

(** [Failure(value).map = () => Failure(value)],
    [Success(value).map = fn => Either.of(fn(value))] *)
Definition either_map {St} (e : either val) (fn : val -> M St val) : M St (either val) :=
  match e with
  | Failure v => ret (Failure v)
  | Success v => r <- fn v ;; ret (Either_of r)
  end.

(** [either(onFailure)(onSuccess)(e)] *)
Definition either_fold {A B} (onFailure onSuccess : A -> B) (e : either A) : B :=
  if isFailure e then onFailure (either_value e) else onSuccess (either_value e).

(** [eitherToMaybe = e => either(() => Nothing)(value => Maybe.of(value))(e)] *)
Definition eitherToMaybe (e : either val) : option maybe :=
  either_fold (fun _ => Some Nothing) Maybe_of e.

(** The reducer of [mergeEithers]. *)
Definition mergeEithers_step (accumulator : either (list val)) (current : either val)
  : either (list val) :=
  if isFailure current
  then if isFailure accumulator
       then Failure (either_value accumulator ++ [either_value current])%list
       else Failure [either_value current]
  else if isFailure accumulator
       then accumulator
       else Success (either_value accumulator ++ [either_value current])%list.

(** [mergeEithers = (...eithers) => reduce(Success([]))(step)(eithers)] *)
Definition mergeEithers (eithers : list (either val)) : either (list val) :=
  fold_left mergeEithers_step eithers (Success []).

(** The result C4 describes. *)
Definition failure_payloads (es : list (either val)) : list val :=
  map either_value (filter isFailure es).

Definition merge_expected (es : list (either val)) : either (list val) :=
  if existsb isFailure es then Failure (failure_payloads es)
  else Success (map either_value es).

(** ** SyncEffect (SyncEffect.js)

    An effect stores a JavaScript function [trigger]; calling it is an
    action of [M St].  The methods only build new effects around it. *)
Section SyncEffects.
Context {St : Type}.

Record SyncEffect (A : Type) : Type := getSyncEffect { trigger : val -> M St A }.
Arguments getSyncEffect {A} trigger.
Arguments trigger {A} _ _.

(** [SyncEffect.of = trigger => getSyncEffect(trigger)] *)
Definition SyncEffect_of {A} (th : val -> M St A) : SyncEffect A := getSyncEffect th.

(** [map: fn => getSyncEffect(a => fn(trigger(a)))] *)
Definition sync_map {A B} (e : SyncEffect A) (fn : A -> M St B) : SyncEffect B :=
  getSyncEffect (fun a => x <- trigger e a ;; fn x).

(** [flatMap: fn => getSyncEffect(() =>
       getSyncEffect(trigger).map(fn).trigger().trigger())] *)
Definition sync_flatMap {A B} (e : SyncEffect A) (fn : A -> M St (SyncEffect B))
  : SyncEffect B :=
  getSyncEffect (fun _ =>
    e2 <- trigger (sync_map (getSyncEffect (trigger e)) fn) VUndefined ;;
    trigger e2 VUndefined).

(** A chain [SyncEffect.of(th).map(f).flatMap(g)...] as the program writes it. *)
Inductive sync_chain : Type -> Type :=
| SOf {A} (th : val -> M St A) : sync_chain A
| SMap {A B} (c : sync_chain A) (fn : A -> M St B) : sync_chain B
| SFlatMap {A B} (c : sync_chain A) (fn : A -> M St (SyncEffect B)) : sync_chain B.

(** Evaluating the chain: each method call is a JavaScript call. *)
Fixpoint build_sync {A} (c : sync_chain A) : M St (SyncEffect A) :=
  match c with
  | SOf th => ret (SyncEffect_of th)
  | SMap c fn => e <- build_sync c ;; ret (sync_map e fn)
  | SFlatMap c fn => e <- build_sync c ;; ret (sync_flatMap e fn)
  end.
End SyncEffects.
Arguments getSyncEffect {St A} trigger.
Arguments trigger {St A} _ _.

(** ** AsyncEffect (AsyncEffect.js)

    [trigger(reject)(resolve)] is an action of [M St]; callbacks are
    actions too.  The value [trigger] returns is used by no method and is
    left out. *)
Section AsyncEffects.
Context {St : Type}.

Definition callback : Type := val -> M St unit.

Record AsyncEffect : Type := getAsyncEffect
  { atrigger : callback -> callback -> M St unit }.

(** What the function given to [AsyncEffect.of] returns when called as
    [trigger(reject, resolve)]: a curried [reject => resolve => ...] returns
    a function that is then given [resolve]; a binary function returns some
    other value (a promise or [undefined]). *)
Inductive trigger_result : Type :=
| RFun (k : callback -> M St unit)
| RVal.

(** [AsyncEffect.of = trigger => getAsyncEffect(nary(reject => resolve => {
      try { const result = trigger(reject, resolve);
            return isFunction(result) ? result(resolve) : result; }
      catch(error) { reject(error); } }))] *)
Definition AsyncEffect_of (th : callback -> callback -> M St trigger_result) : AsyncEffect :=
  getAsyncEffect (fun reject resolve =>
    catch (result <- th reject resolve ;;
           match result with
           | RFun k => k resolve
           | RVal => ret tt
           end)
          (fun error => reject error)).

(** [map: fn => getAsyncEffect(nary(reject => resolve =>
       trigger(reject)(a => resolve(fn(a)))))] *)
Definition async_map (e : AsyncEffect) (fn : val -> M St val) : AsyncEffect :=
  getAsyncEffect (fun reject resolve =>
    atrigger e reject (fun a => b <- fn a ;; resolve b)).

(** [flatMap: fn => getAsyncEffect(nary(reject => resolve =>
       trigger(reject)(x => fn(x).trigger(reject)(resolve))))] *)
Definition async_flatMap (e : AsyncEffect) (fn : val -> M St AsyncEffect) : AsyncEffect :=
  getAsyncEffect (fun reject resolve =>
    atrigger e reject (fun x => e2 <- fn x ;; atrigger e2 reject resolve)).

Inductive async_chain : Type :=
| AOf (th : callback -> callback -> M St trigger_result)
| AMap (c : async_chain) (fn : val -> M St val)
| AFlatMap (c : async_chain) (fn : val -> M St AsyncEffect).

Fixpoint build_async (c : async_chain) : M St AsyncEffect :=
  match c with
  | AOf th => ret (AsyncEffect_of th)
  | AMap c fn => e <- build_async c ;; ret (async_map e fn)
  | AFlatMap c fn => e <- build_async c ;; ret (async_flatMap e fn)
  end.

(** An effect that never calls the [resolve] it is given. *)
Definition never_resolves (e : AsyncEffect) : Prop :=
  forall (reject resolve1 resolve2 : callback) (s : St),
    atrigger e reject resolve1 s = atrigger e reject resolve2 s.

(** An effect that, triggered, runs [pre] and then resolves with [x], as
    [AsyncEffect.of(reject => resolve => { pre; resolve(x); })] does: a throw
    of [pre] or of [resolve] goes to [reject]. *)
Definition resolves_after (e : AsyncEffect) (pre : callback -> M St unit) (x : val) : Prop :=
  forall (reject resolve : callback) (s : St),
    atrigger e reject resolve s = catch (_u <- pre reject ;; resolve x) reject s.

(** An effect that, triggered, runs [pre] and then rejects with [p]. *)
Definition rejects_after (e : AsyncEffect) (pre : callback -> M St unit) (p : val) : Prop :=
  forall (reject resolve : callback) (s : St),
    atrigger e reject resolve s = catch (_u <- pre reject ;; reject p) reject s.
End AsyncEffects.
Arguments callback St : clear implicits.
Arguments SyncEffect St A : clear implicits.
Arguments sync_chain St _ : clear implicits.
Arguments AsyncEffect St : clear implicits.
Arguments trigger_result St : clear implicits.
Arguments async_chain St : clear implicits.

(** ** Promises and [mergeAsyncEffects]

    How a promise settles: the first of its [resolve] or [reject] calls
    wins. *)
Inductive settlement : Type :=
| Resolved (v : val)
| Rejected (e : val).

(** [e.promise() = new Promise((resolve, reject) => trigger(reject)(resolve))]
    for an effect that settles during [trigger]: the promise's state is the
    program state, its executor's exception rejects it. *)
Definition settle_once (o : settlement) : callback (option settlement) :=
  fun _ s => match s with
             | None => (Ok tt, Some o)
             | Some _ => (Ok tt, s)
             end.

Definition promise_settlement (e : AsyncEffect (option settlement)) : option settlement :=
  match atrigger e (fun err => settle_once (Rejected err) err)
                   (fun v => settle_once (Resolved v) v) None with
  | (Ok _, s) => s
  | (Throw err, None) => Some (Rejected err)
  | (Throw _, s) => s
  end.

(** [Promise.all(promises)], following ECMAScript's [PerformPromiseAll]:
    [values] starts as [undefined]s, each resolution stores its value at
    the index of its promise and decrements [remaining]; the result
    resolves with [values] when [remaining] reaches [0]; the first
    rejection rejects it; once settled, later settlements change nothing. *)
Record all_state : Type := mkAll
  { all_result : option settlement; all_values : list val; all_remaining : nat }.

Fixpoint replace_nth (l : list val) (i : nat) (v : val) : list val :=
  match l, i with
  | [], _ => []
  | _ :: l', 0 => v :: l'
  | x :: l', S i' => x :: replace_nth l' i' v
  end.

Definition all_init (n : nat) : all_state :=
  if Nat.eqb n 0 then mkAll (Some (Resolved (VArr []))) [] 0
  else mkAll None (repeat VUndefined n) n.

(** One input promise, of index [i], settles with [outs[i]]. *)
Definition all_step (outs : list settlement) (st : all_state) (i : nat) : all_state :=
  match all_result st with
  | Some _ => st
  | None =>
      match nth_error outs i with
      | Some (Resolved v) =>
          let values := replace_nth (all_values st) i v in
          let remaining := all_remaining st - 1 in
          if Nat.eqb remaining 0
          then mkAll (Some (Resolved (VArr values))) values remaining
          else mkAll None values remaining
      | Some (Rejected e) => mkAll (Some (Rejected e)) (all_values st) (all_remaining st)
      | None => st
      end
  end.

(** The settlement of [Promise.all] over promises settling with [outs] (in
    input order) at the moments listed by [order] (indices, first to
    settle first); [None] while it is pending. *)
Definition promise_all (outs : list settlement) (order : list nat) : option settlement :=
  all_result (fold_left (all_step outs) order (all_init (List.length outs))).

(** [mergeAsyncEffects = (...asyncEffects) => AsyncEffect.ofPromise(() =>
      Promise.all(map(a => a.promise())(asyncEffects)))], with
    [ofPromise = promise => AsyncEffect.of(reject => resolve =>
      promise().then(resolve).catch(reject))]: triggering the merged effect
    hands the settlement of [Promise.all] to the callbacks; an exception of
    [resolve] goes to [reject]; an exception of [reject] only rejects the
    promise [catch] returns. *)
Definition mergeAsyncEffects_deliver {St} (all : option settlement)
  (reject resolve : callback St) : M St unit :=
  match all with
  | Some (Resolved v) => catch (resolve v) (fun error => catch (reject error) (fun _ => ret tt))
  | Some (Rejected e) => catch (reject e) (fun _ => ret tt)
  | None => ret tt
  end.

(** The payload of the first input, in settlement order, to reject. *)
Fixpoint first_rejection (outs : list settlement) (order : list nat) : option val :=
  match order with
  | [] => None
  | i :: rest =>
      match nth_error outs i with
      | Some (Rejected e) => Some e
      | _ => first_rejection outs rest
      end
  end.

Definition resolved_value (o : settlement) : val :=
  match o with Resolved v => v | Rejected _ => VUndefined end.

Definition is_resolved (o : settlement) : bool :=
  match o with Resolved _ => true | Rejected _ => false end.

(** The [values] of [Promise.all] once the inputs listed in [p] resolved. *)
Definition filled (outs : list settlement) (p : list nat) : list val :=
  map (fun k => if existsb (Nat.eqb k) p
                then resolved_value (nth k outs (Rejected VUndefined))
                else VUndefined)
      (seq 0 (List.length outs)).

(** ** More of Maybe.js, Either.js, SyncEffect.js and AsyncEffect.js *)

(** JavaScript truthiness ([NaN] is not among the modelled numbers). *)
Definition truthy (v : val) : bool :=
  match v with
  | VUndefined | VNull => false
  | VBool b => b
  | VNum n => negb (Z.eqb n 0)
  | VStr s => negb (String.eqb s "")
  | VArr _ | VObj _ | VFun _ _ => true
  end.

(** [error.message]: a TypeError on [null] and [undefined]; an object's own
    property (an [Error] owns its [message]); [undefined] otherwise. *)
Definition message_of (error : val) : option val :=
  match error with
  | VUndefined | VNull => None
  | VObj props => Some (get_prop "message" props)
  | _ => Some VUndefined
  end.

Section Conversions.
Context {St : Type}.
Variable apply : val -> val -> M St val.

(** [maybe = nary(onNothing => onJust => functorMaybe =>
      functorMaybe.isNothing() ? onNothing() : onJust(functorMaybe.value))] *)
Definition maybe_fold {B} (onNothing : unit -> B) (onJust : val -> B) (m : maybe) : B :=
  if maybe_isNothing m then onNothing tt else onJust (maybe_value m).

(** The reducer of [mergeMaybes]; the accumulator is [Nothing] ([None]) or
    [Just] of an array ([Some xs]). *)
Definition mergeMaybes_step (accumulator : option (list val)) (current : maybe)
  : option (list val) :=
  if maybe_isNothing current then None
  else match accumulator with
       | None => None
       | Some xs => Some (xs ++ [maybe_value current])%list
       end.

(** [mergeMaybes = (...maybes) => reduce(Just([]))(step)(maybes)] *)
Definition mergeMaybes (maybes : list maybe) : maybe :=
  match fold_left mergeMaybes_step maybes (Some []) with
  | None => Nothing
  | Some xs => Just (VArr xs)
  end.

(** [maybeToEither = m => maybe(() => Failure('Maybe is Nothing.'))(value => Success(value))(m)] *)
Definition maybeToEither (m : maybe) : either val :=
  maybe_fold (fun _ => Failure (VStr "Maybe is Nothing.")) Success m.

(** [maybeToSyncEffect = m => maybe
      (() => SyncEffect.of(() => { throw 'Maybe is Nothing.' }))
      (value => SyncEffect.of(() => value))(m)] *)
Definition maybeToSyncEffect (m : maybe) : SyncEffect St val :=
  maybe_fold (fun _ => SyncEffect_of (fun _ => throw (VStr "Maybe is Nothing.")))
             (fun value => SyncEffect_of (fun _ => ret value)) m.

(** [maybeToAsyncEffect = m => maybe
      (() => AsyncEffect.of(reject => _ => reject('Maybe is Nothing.')))
      (value => AsyncEffect.of(_ => resolve => resolve(value)))(m)] *)
Definition maybeToAsyncEffect (m : maybe) : AsyncEffect St :=
  maybe_fold (fun _ => AsyncEffect_of (fun reject _ =>
                         ret (RFun (fun _ => reject (VStr "Maybe is Nothing.")))))
             (fun value => AsyncEffect_of (fun _ _ =>
                         ret (RFun (fun resolve => resolve value)))) m.

(** [Either.try = fn => { try { return Success(fn()); }
                          catch(error) { return Failure(error.message || error); } }];
    reading [error.message] happens outside the [try]. *)
Definition Either_try (fn : M St val) : M St (either val) :=
  catch (v <- fn ;; ret (Success v))
        (fun error => message <- lift_option (message_of error) ;;
                      ret (Failure (if truthy message then message else error))).

(** [Failure(value).flatMap = () => Failure(value)], [Success(value).flatMap = fn => fn(value)] *)
Definition either_flatMap (e : either val) (fn : val -> M St (either val)) : M St (either val) :=
  match e with
  | Failure v => ret (Failure v)
  | Success v => fn v
  end.

(** [Failure(value).ap = () => Failure(value)], [Success(value).ap = f => f.map(value)] *)
Definition either_ap (e : either val) (f : either val) : M St (either val) :=
  match e with
  | Failure v => ret (Failure v)
  | Success fv => either_map f (apply fv)
  end.

(** core.js [liftA2 = nary(fn => ap1 => ap2 => ap1.map(fn).ap(ap2))] on Either. *)
Definition liftA2_either (fn : val) (ap1 ap2 : either val) : M St (either val) :=
  e <- either_map ap1 (apply fn) ;; either_ap e ap2.

(** ... and on Maybe. *)
Definition liftA2_maybe (fn : val) (ap1 ap2 : maybe) : M St maybe :=
  m <- maybe_map ap1 (apply fn) ;; maybe_ap apply m ap2.

(** [validateEithers = (...fns) => input => reduce(Success(input))(step)(fns)]:
    the accumulator stays [Success(input)] ([None]) until a function fails,
    then it is [Failure] of an array ([Some xs]). *)
Definition validateEithers_step (input : val) (accumulator : option (list val))
  (currentFn : val -> either val) : option (list val) :=
  let currentResult := currentFn input in
  if isFailure currentResult
  then match accumulator with
       | Some xs => Some (xs ++ [either_value currentResult])%list
       | None => Some [either_value currentResult]
       end
  else accumulator.

Definition validateEithers (fns : list (val -> either val)) (input : val) : either val :=
  match fold_left (validateEithers_step input) fns None with
  | None => Success input
  | Some xs => Failure (VArr xs)
  end.

(** [eitherToSyncEffect = e => either
      (error => SyncEffect.of(() => { throw error; }))
      (value => SyncEffect.of(() => value))(e)] *)
Definition eitherToSyncEffect (e : either val) : SyncEffect St val :=
  either_fold (fun error => SyncEffect_of (fun _ => throw error))
              (fun value => SyncEffect_of (fun _ => ret value)) e.

(** [eitherToAsyncEffect = e => either
      (error => AsyncEffect.of(reject => _ => reject(error)))
      (value => AsyncEffect.of(_ => resolve => resolve(value)))(e)] *)
Definition eitherToAsyncEffect (e : either val) : AsyncEffect St :=
  either_fold (fun error => AsyncEffect_of (fun reject _ => ret (RFun (fun _ => reject error))))
              (fun value => AsyncEffect_of (fun _ _ => ret (RFun (fun resolve => resolve value)))) e.

(** [syncEffectToMaybe = e => { try { return Maybe.of(e.trigger()); }
                               catch(error) { return Nothing; } }] *)
Definition syncEffectToMaybe (e : SyncEffect St val) : M St maybe :=
  catch (v <- trigger e VUndefined ;; lift_option (Maybe_of v)) (fun _ => ret Nothing).

(** [syncEffectToEither = e => Either.try(e.trigger)] *)
Definition syncEffectToEither (e : SyncEffect St val) : M St (either val) :=
  Either_try (trigger e VUndefined).

(** [syncEffectToAsyncEffect = e => AsyncEffect.of(_ => resolve => resolve(e.trigger()))] *)
Definition syncEffectToAsyncEffect (e : SyncEffect St val) : AsyncEffect St :=
  AsyncEffect_of (fun _ _ => ret (RFun (fun resolve => v <- trigger e VUndefined ;; resolve v))).

(** [SyncEffect.wrap = value => getSyncEffect(() => value)] *)
Definition SyncEffect_wrap (value : val) : SyncEffect St val :=
  getSyncEffect (fun _ => ret value).

(** [ap: f => getSyncEffect(trigger).flatMap(fn => f.map(fn))] *)
Definition sync_ap (e : SyncEffect St val) (f : SyncEffect St val) : SyncEffect St val :=
  sync_flatMap (getSyncEffect (trigger e)) (fun fn => ret (sync_map f (apply fn))).

(** [ap: f => getAsyncEffect(trigger).flatMap(fn => f.map(fn))] *)
Definition async_ap (e : AsyncEffect St) (f : AsyncEffect St) : AsyncEffect St :=
  async_flatMap (getAsyncEffect (atrigger e)) (fun fn => ret (async_map f (apply fn))).
End Conversions.

(** The Failures [Either.try] hands back unchanged: no truthy [message]. *)
Definition plain_failure (e : either val) : bool :=
  match e with
  | Success _ => true
  | Failure error => match message_of error with
                     | Some m => negb (truthy m)
                     | None => false
                     end
  end.

(** Programs of the concrete scenarios. *)

(** [() => { count++; return count; }] over the counter [count]. *)
Definition count_thunk : val -> M Z Z := fun _ count => (Ok (count + 1)%Z, (count + 1)%Z).

(** [SyncEffect.of(() => { count++; return count; }).map(x => x + 1)] *)
Definition count_chain : sync_chain Z Z := SMap (SOf count_thunk) (fun x => ret (x + 1)%Z).

(** [x => x + 1] on a number. *)
Definition js_plus_one (v : val) : val :=
  match v with VNum n => VNum (n + 1) | _ => v end.

(** [AsyncEffect.of(reject => resolve => { count++; resolve(count); }).map(x => x + 1)]
    over the counter and the list of values the outer [resolve] received. *)
Definition async_count_chain : async_chain (Z * list val) :=
  AMap (AOf (fun _ _ => ret (RFun (fun resolve '(count, got) =>
                                     resolve (VNum (count + 1)) ((count + 1)%Z, got)))))
       (fun x => ret (js_plus_one x)).

Definition record_resolve : callback (Z * list val) :=
  fun v '(count, got) => (Ok tt, (count, got ++ [v])%list).

Definition record_reject : callback (Z * list val) :=
  fun _ s => (Ok tt, s).

(** Callbacks that append their name to a log. *)
Definition log_call (name : string) : callback (list string) :=
  fun _ log => (Ok tt, (log ++ [name])%list).

(** [reject => resolve => { resolve(1); throw 'e'; }] *)
Definition resolve_then_throw : callback (list string) -> callback (list string) ->
                                M (list string) (trigger_result (list string)) :=
  fun _ _ => ret (RFun (fun resolve => _ <- resolve (VNum 1) ;; throw (VStr "e"))).

(** [AsyncEffect.of(reject => _ => reject(e))] *)
Definition rejecting_effect {St} (e : val) : AsyncEffect St :=
  AsyncEffect_of (fun reject _ => ret (RFun (fun _ => reject e))).

(** A step appending [name] to the log. *)
Definition log_step (name : string) : M (list string) unit :=
  fun log => (Ok tt, (log ++ [name])%list).

(** [AsyncEffect.of(reject => resolve => { log(name); resolve(v); })] *)
Definition logged_resolving_effect (name : string) (v : val) : AsyncEffect (list string) :=
  AsyncEffect_of (fun _ _ => ret (RFun (fun resolve => _u <- log_step name ;; resolve v))).

(** [AsyncEffect.of(reject => resolve => { log(name); reject(e); })] *)
Definition logged_rejecting_effect (name : string) (e : val) : AsyncEffect (list string) :=
  AsyncEffect_of (fun reject _ => ret (RFun (fun _ => _u <- log_step name ;; reject e))).

(** [AsyncEffect.of(_ => resolve => resolve(v))] *)
Definition resolving_effect {St} (v : val) : AsyncEffect St :=
  AsyncEffect_of (fun _ _ => ret (RFun (fun resolve => resolve v))).

(** ** Theorems *)

Lemma isNothing_total (v : val) : isNothing v <> None.
Proof.
  destruct v; unfold isNothing, isEmpty, isLength0; simpl;
    repeat match goal with |- context [if ?b then _ else _] => destruct b end;
    discriminate.
Qed.

Example Maybe_of_examples :
  Maybe_of VNull = Some Nothing /\ Maybe_of (VStr "") = Some Nothing /\
  Maybe_of (VArr []) = Some Nothing /\ Maybe_of (VObj []) = Some Nothing /\
  Maybe_of (VStr "7urtle") = Some (Just (VStr "7urtle")) /\
  Maybe_of (VNum 1) = Some (Just (VNum 1)).
Proof. repeat split; reflexivity. Qed.

(** C1: what [Maybe.of] computes. [Maybe.of(x)] is [Nothing] exactly when
    [x] is [null] or [undefined], or [x.length === 0] (empty string, empty
    array, but also a function declaring no parameter and an object whose
    [length] property is [0]), or [x] is an object with no own property
    names; otherwise it is [Just(x)]. *)
Theorem Maybe_of_classification (v : val) :
  Maybe_of v = Some (if length_absent v then Nothing else Just v).
Proof.
  destruct v as [| |b|n|s|xs|props|n nm]; try reflexivity.
  - unfold Maybe_of, isNothing, isEmpty, isLength0; simpl.
    destruct s; reflexivity.
  - unfold Maybe_of, isNothing, isEmpty, isLength0; simpl.
    destruct xs; reflexivity.
  - unfold Maybe_of, isNothing, isEmpty, isLength0; simpl.
    destruct (is_zero (get_prop "length" props)); simpl; [reflexivity|].
    destruct props; reflexivity.
  - unfold Maybe_of, isNothing, isEmpty, isLength0; simpl.
    destruct n; reflexivity.
Qed.

(** C1 failing input: a function declaring no parameter (such as one
    wrapped by [nary], whose [length] is [0]) and the non-empty object
    [{length: 0}] are neither absent values of the spec's list, yet
    [Maybe.of] classifies both as [Nothing]; so [Maybe.of(fn).ap(Just(1))]
    gives [Nothing] without calling [fn]. *)
Lemma Maybe_of_not_spec_absent :
  spec_absent (VFun 0 "nary") = false /\ Maybe_of (VFun 0 "nary") = Some Nothing /\
  spec_absent (VObj [("length", VNum 0)]) = false /\
  Maybe_of (VObj [("length", VNum 0)]) = Some Nothing /\
  maybe_ap (St := list string) (fun _ x log => (Ok x, (log ++ ["fn called"])%list))
    Nothing (Just (VNum 1)) [] = (Ok Nothing, []).
Proof. repeat split; reflexivity. Qed.

Lemma maybe_map_Just_unfold {St} (v : val) (fn : val -> M St val) (s : St) :
  maybe_map (Just v) fn s =
  match fn v s with
  | (Ok r, s') => (Ok (if length_absent r then Nothing else Just r), s')
  | (Throw e, s') => (Throw e, s')
  end.
Proof.
  unfold maybe_map, bind. destruct (fn v s) as [[r|e] s']; [|reflexivity].
  rewrite Maybe_of_classification. reflexivity.
Qed.

(** C2 (amended): mapping [identity] leaves [Failure(v)], [Success(v)] and
    [Nothing] unchanged (same variant, same payload, state untouched), and
    leaves [Just(v)] unchanged exactly when [v] is not classified absent by
    [Maybe.of]; [Just(v)] with an absent payload maps to [Nothing]. *)
Theorem map_identity_law {St} :
  (forall (v : val) (s : St), either_map (Failure v) identity s = (Ok (Failure v), s)) /\
  (forall (v : val) (s : St), either_map (Success v) identity s = (Ok (Success v), s)) /\
  (forall s : St, maybe_map Nothing identity s = (Ok Nothing, s)) /\
  (forall (v : val) (s : St),
      maybe_map (Just v) identity s = (Ok (if length_absent v then Nothing else Just v), s)).
Proof.
  repeat split. intros v s. rewrite maybe_map_Just_unfold. reflexivity.
Qed.

(** C2 counterexample: [Just('').map(identity)] is [Nothing], not [Just('')]. *)
Lemma map_identity_Just_empty :
  maybe_map (Just (VStr "")) (@identity unit) tt = (Ok Nothing, tt).
Proof. reflexivity. Qed.

(** C3: [Just(v).map(f)] is [Maybe.of(f(v))]: the result of [f] is
    re-classified, so an empty result gives [Nothing], and an exception of [f]
    propagates; [Nothing.map(f)] is [Nothing] and does not run [f] (the state
    is untouched and nothing is thrown, whatever [f] does). *)
Theorem maybe_map_reclassifies {St} :
  (forall (v : val) (fn : val -> M St val) (s : St),
      maybe_map (Just v) fn s =
      match fn v s with
      | (Ok r, s') => match Maybe_of r with
                      | Some m => (Ok m, s')
                      | None => (Throw TypeError, s')
                      end
      | (Throw e, s') => (Throw e, s')
      end) /\
  (forall (v : val) (fn : val -> M St val) (s : St),
      maybe_map (Just v) fn s =
      match fn v s with
      | (Ok r, s') => (Ok (if length_absent r then Nothing else Just r), s')
      | (Throw e, s') => (Throw e, s')
      end) /\
  (forall (fn : val -> M St val) (s : St), maybe_map Nothing fn s = (Ok Nothing, s)).
Proof.
  repeat split.
  - intros v fn s. unfold maybe_map, bind, lift_option.
    destruct (fn v s) as [[r|e] s']; [|reflexivity].
    destruct (Maybe_of r); reflexivity.
  - intros. apply maybe_map_Just_unfold.
Qed.

Lemma mergeEithers_from_Failure (es : list (either val)) (a : list val) :
  fold_left mergeEithers_step es (Failure a) = Failure (a ++ failure_payloads es)%list.
Proof.
  revert a. induction es as [|[c|c] es IH]; intro a; simpl; cbn [mergeEithers_step isFailure either_value].
  - rewrite app_nil_r. reflexivity.
  - rewrite IH. unfold failure_payloads. simpl. rewrite <- app_assoc. reflexivity.
  - rewrite IH. reflexivity.
Qed.

Lemma mergeEithers_from_Success (es : list (either val)) (a : list val) :
  fold_left mergeEithers_step es (Success a) =
  if existsb isFailure es then Failure (failure_payloads es)
  else Success (a ++ map either_value es)%list.
Proof.
  revert a. induction es as [|[c|c] es IH]; intro a; simpl; cbn [mergeEithers_step isFailure either_value].
  - rewrite app_nil_r. reflexivity.
  - rewrite mergeEithers_from_Failure. reflexivity.
  - rewrite IH. destruct (existsb isFailure es); [reflexivity|].
    rewrite <- app_assoc. reflexivity.
Qed.

(** C4: [mergeEithers] gives [Success] of all payloads in order when every
    argument is a [Success], and otherwise [Failure] of the payloads of all
    [Failure] arguments in order (the [Success] payloads are dropped); the two
    concrete cases of the spec. *)
Theorem mergeEithers_accumulates :
  (forall es : list (either val), mergeEithers es = merge_expected es) /\
  mergeEithers [Success (VStr "a"); Failure (VStr "e1"); Failure (VStr "e2"); Success (VStr "b")]
    = Failure [VStr "e1"; VStr "e2"] /\
  mergeEithers [Success (VStr "a"); Success (VStr "b")] = Success [VStr "a"; VStr "b"].
Proof.
  repeat split; [|reflexivity..].
  intro es. unfold mergeEithers, merge_expected.
  rewrite mergeEithers_from_Success. reflexivity.
Qed.

(** C10: [Nothing] is one value whose [value] is [null]; its [map], [flatMap]
    and [ap] return [Nothing] for every argument without running it; every
    absent Maybe is that value, so its payload is [null]; in particular
    [eitherToMaybe(Failure(e))] is [Nothing] with value [null], not [e]. *)
Theorem Nothing_absorbs {St} (apply : val -> val -> M St val) :
  maybe_value Nothing = VNull /\
  (forall (fn : val -> M St val) (s : St), maybe_map Nothing fn s = (Ok Nothing, s)) /\
  (forall (fn : val -> M St maybe) (s : St), maybe_flatMap Nothing fn s = (Ok Nothing, s)) /\
  (forall (f : maybe) (s : St), maybe_ap apply Nothing f s = (Ok Nothing, s)) /\
  (forall m : maybe, maybe_isNothing m = true <-> m = Nothing) /\
  (forall e : val, eitherToMaybe (Failure e) = Some Nothing /\
                   maybe_value Nothing = VNull).
Proof.
  repeat split; try reflexivity.
  - destruct m; [reflexivity|discriminate].
  - intros ->. reflexivity.
Qed.

(** C5: building a Synchronous or Asynchronous Effect with [of], [map] and
    [flatMap] runs nothing: the state is unchanged and nothing is thrown,
    whatever the stored computations do; [trigger] runs the stored
    computation on each call.  The spec's scenario: the counter is [0] after
    building, the first [trigger()] returns [2] and leaves it at [1], a second
    [trigger()] runs the computation again. *)
Theorem effects_are_lazy :
  (forall (St A : Type) (c : sync_chain St A) (s : St),
      exists e, build_sync c s = (Ok e, s)) /\
  (forall (St : Type) (c : async_chain St) (s : St),
      exists e, build_async c s = (Ok e, s)) /\
  (forall (St A : Type) (th : val -> M St A) (a : val), trigger (SyncEffect_of th) a = th a) /\
  (exists e, build_sync count_chain 0%Z = (Ok e, 0%Z) /\
             trigger e VUndefined 0%Z = (Ok 2%Z, 1%Z) /\
             trigger e VUndefined 1%Z = (Ok 3%Z, 2%Z)) /\
  (exists e, build_async async_count_chain (0%Z, []) = (Ok e, (0%Z, [])) /\
             atrigger e record_reject record_resolve (0%Z, []) = (Ok tt, (1%Z, [VNum 2])) /\
             atrigger e record_reject record_resolve (1%Z, [VNum 2])
               = (Ok tt, (2%Z, [VNum 2; VNum 3]))).
Proof.
  split; [|split; [|split; [|split]]].
  - intros St A c. induction c as [A th|A B c IH fn|A B c IH fn]; intro s; simpl.
    + eexists; reflexivity.
    + destruct (IH s) as [e He]. unfold bind. rewrite He. eexists; reflexivity.
    + destruct (IH s) as [e He]. unfold bind. rewrite He. eexists; reflexivity.
  - intros St c. induction c as [th|c IH fn|c IH fn]; intro s; simpl.
    + eexists; reflexivity.
    + destruct (IH s) as [e He]. unfold bind. rewrite He. eexists; reflexivity.
    + destruct (IH s) as [e He]. unfold bind. rewrite He. eexists; reflexivity.
  - reflexivity.
  - eexists. split; [reflexivity|split; reflexivity].
  - eexists. split; [reflexivity|split; reflexivity].
Qed.

(** C6: triggering [e.flatMap(f)] triggers [e], applies [f] to its result
    and triggers the effect [f] returns, giving its result; if [e] throws,
    [f] is not called and the exception propagates. *)
Theorem sync_flatMap_trigger {St A B} (e : SyncEffect St A)
  (fn : A -> M St (SyncEffect St B)) (a : val) (s : St) :
  trigger (sync_flatMap e fn) a s =
  match trigger e VUndefined s with
  | (Ok x, s1) =>
      match fn x s1 with
      | (Ok e2, s2) => trigger e2 VUndefined s2
      | (Throw err, s2) => (Throw err, s2)
      end
  | (Throw err, s1) => (Throw err, s1)
  end.
Proof.
  simpl. unfold bind. simpl. unfold bind.
  destruct (trigger e VUndefined s) as [[x|err] s1]; [|reflexivity].
  destruct (fn x s1) as [[e2|err] s2]; reflexivity.
Qed.

(** C7 (amended): when the computation given to [AsyncEffect.of] throws
    during [trigger] (in its own call or in the function it returns, applied
    to [resolve]), the effect catches the value and passes it to [reject], at
    the state the computation left; the effect never hands it to [resolve],
    but [resolve] calls the computation made before throwing stand. *)
Theorem async_of_catches {St} (th : callback St -> callback St -> M St (trigger_result St))
  (reject resolve : callback St) (s : St) :
  atrigger (AsyncEffect_of th) reject resolve s =
  match th reject resolve s with
  | (Ok (RFun k), s1) =>
      match k resolve s1 with
      | (Ok u, s2) => (Ok u, s2)
      | (Throw error, s2) => reject error s2
      end
  | (Ok RVal, s1) => (Ok tt, s1)
  | (Throw error, s1) => reject error s1
  end.
Proof.
  simpl. unfold catch, bind.
  destruct (th reject resolve s) as [[[k|]|error] s1]; [|reflexivity|reflexivity].
  destruct (k resolve s1) as [[u|error] s2]; reflexivity.
Qed.

(** C7 counterexample: for [reject => resolve => { resolve(1); throw 'e'; }]
    both [resolve] and [reject] are called. *)
Lemma async_of_throw_after_resolve :
  atrigger (AsyncEffect_of resolve_then_throw) (log_call "reject") (log_call "resolve") []
  = (Ok tt, ["resolve"; "reject"]).
Proof. reflexivity. Qed.

(** C8: in [e.flatMap(f)] the function [f] is called, and the effect it
    returns triggered, only from the [resolve] callback [e] receives, for
    every [e]. So when [e] runs some action [pre] and then resolves with [x]
    (an [AsyncEffect.of(reject => resolve => { pre; resolve(x); })]), [f] is
    called with [x] only after [pre] and its effect is triggered then with
    the outer callbacks; when [e] never resolves, the composed effect behaves
    as [e] itself with the outer callbacks; and when [e] rejects with [p]
    after [pre], the composed effect rejects with [p] and [f] is never
    called. *)
Theorem async_flatMap_short_circuit {St} (e : AsyncEffect St) :
  (forall (fn : val -> M St (AsyncEffect St)) (reject resolve : callback St) (s : St),
      atrigger (async_flatMap e fn) reject resolve s =
      atrigger e reject (fun x => e2 <- fn x ;; atrigger e2 reject resolve) s) /\
  (forall (pre : callback St -> M St unit) (x : val), resolves_after e pre x ->
   forall (fn : val -> M St (AsyncEffect St)) (reject resolve : callback St) (s : St),
      atrigger (async_flatMap e fn) reject resolve s =
      catch (_u <- pre reject ;; e2 <- fn x ;; atrigger e2 reject resolve) reject s) /\
  (never_resolves e ->
   forall (fn : val -> M St (AsyncEffect St)) (reject resolve : callback St) (s : St),
      atrigger (async_flatMap e fn) reject resolve s = atrigger e reject resolve s) /\
  (forall (pre : callback St -> M St unit) (p : val), rejects_after e pre p ->
   forall (fn : val -> M St (AsyncEffect St)) (reject resolve : callback St) (s : St),
      atrigger (async_flatMap e fn) reject resolve s =
      catch (_u <- pre reject ;; reject p) reject s).
Proof.
  split; [|split; [|split]].
  - intros fn reject resolve s. reflexivity.
  - intros pre x Hres fn reject resolve s. simpl. apply Hres.
  - intros Hnever fn reject resolve s. simpl. apply Hnever.
  - intros pre p Hrej fn reject resolve s. simpl. apply Hrej.
Qed.

Lemma async_flatMap_short_circuit_witness :
  resolves_after (logged_resolving_effect "e ran" (VNum 1)) (fun _ => log_step "e ran") (VNum 1) /\
  rejects_after (logged_rejecting_effect "e ran" (VStr "I am an error."))
    (fun _ => log_step "e ran") (VStr "I am an error.") /\
  never_resolves (@rejecting_effect (list string) (VStr "I am an error.")) /\
  atrigger (async_flatMap (logged_resolving_effect "e ran" (VNum 1))
              (fun v log => (Ok (resolving_effect v), (log ++ ["f called"])%list)))
           (log_call "reject") (log_call "resolve") []
  = (Ok tt, ["e ran"; "f called"; "resolve"]) /\
  atrigger (async_flatMap (logged_rejecting_effect "e ran" (VStr "I am an error."))
              (fun v log => (Ok (resolving_effect v), (log ++ ["f called"])%list)))
           (log_call "reject") (log_call "resolve") []
  = (Ok tt, ["e ran"; "reject"]) /\
  atrigger (async_flatMap (rejecting_effect (VStr "I am an error."))
              (fun _ log => (Ok (resolving_effect (VStr "second")), (log ++ ["f called"])%list)))
           (log_call "reject") (log_call "resolve") []
  = atrigger (rejecting_effect (VStr "I am an error.")) (log_call "reject") (log_call "resolve") [].
Proof.
  assert (Hres : resolves_after (logged_resolving_effect "e ran" (VNum 1))
                   (fun _ => log_step "e ran") (VNum 1))
    by (intros reject k s; reflexivity).
  assert (Hrej : rejects_after (logged_rejecting_effect "e ran" (VStr "I am an error."))
                   (fun _ => log_step "e ran") (VStr "I am an error."))
    by (intros reject k s; reflexivity).
  assert (Hnever : never_resolves (@rejecting_effect (list string) (VStr "I am an error.")))
    by (intros reject resolve1 resolve2 s; reflexivity).
  split; [exact Hres|]. split; [exact Hrej|]. split; [exact Hnever|].
  split; [|split].
  - rewrite (proj1 (proj2 (async_flatMap_short_circuit _)) _ _ Hres). reflexivity.
  - rewrite (proj2 (proj2 (proj2 (async_flatMap_short_circuit _))) _ _ Hrej). reflexivity.
  - apply (proj1 (proj2 (proj2 (async_flatMap_short_circuit _))) Hnever).
Defined.

(** *** [Promise.all] *)

Lemma length_replace_nth (l : list val) (i : nat) (v : val) :
  List.length (replace_nth l i v) = List.length l.
Proof.
  revert i. induction l as [|x l IH]; intros [|i]; simpl; try rewrite IH; reflexivity.
Qed.

Lemma nth_replace_nth (l : list val) (i k : nat) (v d : val) :
  i < List.length l ->
  nth k (replace_nth l i v) d = if Nat.eqb k i then v else nth k l d.
Proof.
  revert i k. induction l as [|x l IH]; intros i k Hi; simpl in Hi; [lia|].
  destruct i as [|i], k as [|k]; simpl; try reflexivity.
  apply IH. lia.
Qed.

Lemma length_filled (outs : list settlement) (p : list nat) :
  List.length (filled outs p) = List.length outs.
Proof. unfold filled. rewrite length_map, length_seq. reflexivity. Qed.

Lemma nth_filled (outs : list settlement) (p : list nat) (k : nat) :
  k < List.length outs ->
  nth k (filled outs p) VUndefined =
  if existsb (Nat.eqb k) p
  then resolved_value (nth k outs (Rejected VUndefined)) else VUndefined.
Proof.
  intro Hk. unfold filled.
  set (f := fun k0 : nat => if existsb (Nat.eqb k0) p
                            then resolved_value (nth k0 outs (Rejected VUndefined))
                            else VUndefined).
  rewrite (nth_indep _ VUndefined (f 0)) by (rewrite length_map, length_seq; lia).
  rewrite map_nth, seq_nth by lia. reflexivity.
Qed.

Lemma filled_nil (outs : list settlement) :
  filled outs [] = repeat VUndefined (List.length outs).
Proof.
  apply nth_ext with (d := VUndefined) (d' := VUndefined).
  - rewrite length_filled, repeat_length. reflexivity.
  - intros k Hk. rewrite length_filled in Hk.
    rewrite nth_filled by exact Hk. simpl.
    rewrite nth_repeat_lt by exact Hk. reflexivity.
Qed.

Lemma filled_snoc (outs : list settlement) (p : list nat) (i : nat) :
  i < List.length outs ->
  replace_nth (filled outs p) i (resolved_value (nth i outs (Rejected VUndefined)))
  = filled outs (p ++ [i]).
Proof.
  intro Hi.
  apply nth_ext with (d := VUndefined) (d' := VUndefined).
  - rewrite length_replace_nth, !length_filled. reflexivity.
  - intros k Hk. rewrite length_replace_nth, length_filled in Hk.
    rewrite nth_replace_nth by (rewrite length_filled; exact Hi).
    rewrite !nth_filled by exact Hk. rewrite existsb_app. simpl.
    destruct (Nat.eqb_spec k i) as [->|Hne].
    + rewrite orb_true_r. reflexivity.
    + rewrite orb_false_r. reflexivity.
Qed.

Lemma prefix_shorter (p : list nat) (j n : nat) :
  NoDup (j :: p) -> j < n -> (forall i, In i p -> i < n) -> S (List.length p) <= n.
Proof.
  intros Hnd Hj Hp.
  change (S (List.length p)) with (List.length (j :: p)).
  rewrite <- (length_seq n 0).
  apply NoDup_incl_length; [exact Hnd|].
  intros x [<-|Hx]; apply in_seq; [lia|specialize (Hp x Hx); lia].
Qed.

(** The state of [Promise.all] after the inputs [p], all resolving, settled. *)
Lemma promise_all_prefix (outs : list settlement) (p : list nat) :
  List.length outs <> 0 ->
  NoDup p ->
  (forall i, In i p -> i < List.length outs /\
                       is_resolved (nth i outs (Rejected VUndefined)) = true) ->
  fold_left (all_step outs) p (all_init (List.length outs)) =
  mkAll (if Nat.eqb (List.length p) (List.length outs)
         then Some (Resolved (VArr (filled outs p))) else None)
        (filled outs p) (List.length outs - List.length p).
Proof.
  intros Hn. induction p as [|i p IH] using rev_ind; intros Hnd Hp.
  - unfold all_init. simpl.
    apply Nat.eqb_neq in Hn as Hn'. rewrite Hn', filled_nil, Nat.sub_0_r.
    destruct (List.length outs); [congruence|reflexivity].
  - assert (Hnip : ~ In i p).
    { intro Hin. apply (NoDup_remove_2 p [] i); [exact Hnd|].
      rewrite app_nil_r. exact Hin. }
    assert (Hndp : NoDup p) by exact (NoDup_app_remove_r _ _ Hnd).
    assert (Hi : i < List.length outs /\
                 is_resolved (nth i outs (Rejected VUndefined)) = true)
      by (apply Hp; apply in_or_app; right; left; reflexivity).
    assert (Hlen : S (List.length p) <= List.length outs).
    { apply (prefix_shorter p i); [constructor; assumption|apply Hi|].
      intros x Hx. apply Hp. apply in_or_app. left. exact Hx. }
    rewrite fold_left_app, IH by (assumption || (intros x Hx; apply Hp, in_or_app; left; exact Hx)).
    simpl.
    destruct (Nat.eqb_spec (List.length p) (List.length outs)) as [E|_]; [lia|].
    unfold all_step. simpl.
    rewrite (nth_error_nth' outs (Rejected VUndefined)) by apply Hi.
    destruct Hi as [Hi Hres].
    destruct (nth i outs (Rejected VUndefined)) as [v|e] eqn:Ho; [|discriminate].
    change v with (resolved_value (Resolved v)). rewrite <- Ho, filled_snoc by exact Hi.
    rewrite length_app. simpl.
    replace (List.length outs - List.length p - 1) with
      (List.length outs - (List.length p + 1)) by lia.
    destruct (Nat.eqb_spec (List.length outs - (List.length p + 1)) 0);
      destruct (Nat.eqb_spec (List.length p + 1) (List.length outs)); try lia; reflexivity.
Qed.

Lemma fold_all_settled (outs : list settlement) (q : list nat) (st : all_state) :
  all_result st <> None -> fold_left (all_step outs) q st = st.
Proof.
  revert st. induction q as [|i q IH]; intros st Hst; simpl; [reflexivity|].
  unfold all_step at 2. destruct (all_result st) eqn:E; [|congruence].
  apply IH. rewrite E. discriminate.
Qed.

Lemma first_rejection_split (outs : list settlement) (order : list nat) (e : val) :
  first_rejection outs order = Some e ->
  exists p j q, order = (p ++ j :: q)%list /\ nth_error outs j = Some (Rejected e) /\
    forall i o, In i p -> nth_error outs i = Some o -> is_resolved o = true.
Proof.
  induction order as [|i rest IH]; simpl; [discriminate|].
  destruct (nth_error outs i) as [[v|e']|] eqn:Hi.
  - intro H. destruct (IH H) as (p & j & q & -> & Hj & Hp).
    exists (i :: p), j, q. split; [reflexivity|split; [exact Hj|]].
    intros i0 o [<-|Hin] Ho; [|exact (Hp i0 o Hin Ho)].
    rewrite Hi in Ho. injection Ho as <-. reflexivity.
  - intro H. injection H as ->. exists [], i, rest. split; [reflexivity|split; [exact Hi|]].
    intros i0 o [].
  - intro H. destruct (IH H) as (p & j & q & -> & Hj & Hp).
    exists (i :: p), j, q. split; [reflexivity|split; [exact Hj|]].
    intros i0 o [<-|Hin] Ho; [|exact (Hp i0 o Hin Ho)].
    rewrite Hi in Ho. discriminate.
Qed.

Lemma filled_all_resolved (vs : list val) (order : list nat) :
  (forall k, k < List.length vs -> In k order) ->
  filled (map Resolved vs) order = vs.
Proof.
  intro Hall.
  apply nth_ext with (d := VUndefined) (d' := VUndefined).
  - rewrite length_filled, length_map. reflexivity.
  - intros k Hk. rewrite length_filled, length_map in Hk.
    rewrite nth_filled by (rewrite length_map; exact Hk).
    assert (Hin : existsb (Nat.eqb k) order = true).
    { apply existsb_exists. exists k. split; [apply Hall; exact Hk|apply Nat.eqb_refl]. }
    rewrite Hin.
    rewrite (nth_indep _ (Rejected VUndefined) (Resolved VUndefined))
      by (rewrite length_map; exact Hk).
    rewrite map_nth. reflexivity.
Qed.

(** C9: [mergeAsyncEffects] over [N] effects whose promises all resolve,
    settling in any order (any permutation of the indices), resolves with
    the [N] values in argument order, and its [resolve] receives that array;
    when some inputs reject, it rejects with the payload of the first
    rejection to settle, and its [reject] receives it. *)
Theorem mergeAsyncEffects_settles :
  (forall (vs : list val) (order : list nat),
      Permutation order (seq 0 (List.length vs)) ->
      promise_all (map Resolved vs) order = Some (Resolved (VArr vs))) /\
  (forall (outs : list settlement) (order : list nat) (e : val),
      NoDup order -> (forall i, In i order -> i < List.length outs) ->
      first_rejection outs order = Some e ->
      promise_all outs order = Some (Rejected e)) /\
  (forall (St : Type) (reject resolve : callback St) (v : val),
      mergeAsyncEffects_deliver (Some (Resolved v)) reject resolve =
      catch (resolve v) (fun error => catch (reject error) (fun _ => ret tt))) /\
  (forall (St : Type) (reject resolve : callback St) (e : val),
      mergeAsyncEffects_deliver (Some (Rejected e)) reject resolve =
      catch (reject e) (fun _ => ret tt)).
Proof.
  split; [|split; [|split; reflexivity]].
  - intros vs order Hperm. unfold promise_all. rewrite length_map.
    destruct (Nat.eq_dec (List.length vs) 0) as [H0|H0].
    + destruct vs; [|discriminate]. simpl in Hperm.
      apply Permutation_sym, Permutation_nil in Hperm as ->. reflexivity.
    + assert (Hnd : NoDup order)
        by (apply (Permutation_NoDup (Permutation_sym Hperm)), seq_NoDup).
      assert (Hlen : List.length order = List.length vs)
        by (rewrite (Permutation_length Hperm), length_seq; reflexivity).
      rewrite <- (length_map Resolved vs).
      rewrite promise_all_prefix.
      * rewrite length_map, Hlen, Nat.eqb_refl. simpl.
        rewrite filled_all_resolved; [reflexivity|].
        intros k Hk. apply (Permutation_in _ (Permutation_sym Hperm)), in_seq. lia.
      * rewrite length_map. exact H0.
      * exact Hnd.
      * intros i Hi. apply (Permutation_in _ Hperm), in_seq in Hi.
        rewrite length_map. split; [lia|].
        rewrite (nth_indep _ (Rejected VUndefined) (Resolved VUndefined))
          by (rewrite length_map; lia).
        rewrite map_nth. reflexivity.
  - intros outs order e Hnd Hrange Hfirst.
    destruct (first_rejection_split outs order e Hfirst) as (p & j & q & -> & Hj & Hp).
    assert (Hjn : j < List.length outs)
      by (apply Hrange, in_or_app; right; left; reflexivity).
    assert (Hjp : ~ In j p)
      by (intro Hin; apply (NoDup_remove_2 p q j Hnd), in_or_app; left; exact Hin).
    assert (Hndp : NoDup p) by exact (NoDup_app_remove_r _ _ Hnd).
    assert (Hpn : forall i, In i p -> i < List.length outs)
      by (intros i Hi; apply Hrange, in_or_app; left; exact Hi).
    assert (Hlen : S (List.length p) <= List.length outs)
      by (apply (prefix_shorter p j); [constructor; assumption|exact Hjn|exact Hpn]).
    unfold promise_all. rewrite fold_left_app, promise_all_prefix.
    + destruct (Nat.eqb_spec (List.length p) (List.length outs)) as [E|_]; [lia|].
      simpl. unfold all_step at 2. simpl. rewrite Hj.
      rewrite fold_all_settled by (simpl; discriminate). reflexivity.
    + lia.
    + exact Hndp.
    + intros i Hi. split; [exact (Hpn i Hi)|].
      apply (Hp i); [exact Hi|]. apply nth_error_nth'. exact (Hpn i Hi).
Qed.

(** The scenarios of the tests of [mergeAsyncEffects]: effects settling
    synchronously, their promises settling in any order. *)
Lemma mergeAsyncEffects_settles_witness :
  map promise_settlement
      [resolving_effect (VStr "Resolving One"); rejecting_effect (VStr "Rejecting One");
       rejecting_effect (VStr "Rejecting Two"); resolving_effect (VStr "Resolving Two")]
  = map Some [Resolved (VStr "Resolving One"); Rejected (VStr "Rejecting One");
              Rejected (VStr "Rejecting Two"); Resolved (VStr "Resolving Two")] /\
  promise_all (map Resolved [VStr "Resolving One"; VStr "Resolving Two"]) [1; 0]
  = Some (Resolved (VArr [VStr "Resolving One"; VStr "Resolving Two"])) /\
  promise_all [Resolved (VStr "Resolving One"); Rejected (VStr "Rejecting One");
               Rejected (VStr "Rejecting Two"); Resolved (VStr "Resolving Two")] [0; 1; 2; 3]
  = Some (Rejected (VStr "Rejecting One")).
Proof.
  split; [reflexivity|split].
  - apply (proj1 mergeAsyncEffects_settles). simpl. apply perm_swap.
  - apply (proj1 (proj2 mergeAsyncEffects_settles)).
    + repeat constructor; simpl; lia.
    + intros i Hi. simpl in Hi. simpl. lia.
    + reflexivity.
Defined.

(** *** Further properties of the containers *)

Lemma mergeMaybes_from_None (ms : list maybe) :
  fold_left mergeMaybes_step ms None = None.
Proof.
  induction ms as [|m ms IH]; simpl; [reflexivity|].
  unfold mergeMaybes_step at 2. destruct (maybe_isNothing m); exact IH.
Qed.

Lemma mergeMaybes_from_Some (ms : list maybe) (xs : list val) :
  fold_left mergeMaybes_step ms (Some xs) =
  if existsb maybe_isNothing ms then None else Some (xs ++ map maybe_value ms)%list.
Proof.
  revert xs. induction ms as [|m ms IH]; intro xs; simpl.
  - rewrite app_nil_r. reflexivity.
  - unfold mergeMaybes_step at 2. destruct (maybe_isNothing m); simpl.
    + apply mergeMaybes_from_None.
    + rewrite IH, <- app_assoc. reflexivity.
Qed.

(** [mergeMaybes] is [Just] of the array of all values, in argument order,
    when no argument is [Nothing] (so [mergeMaybes()] is [Just([])]), and
    [Nothing] as soon as one argument is. *)
Theorem mergeMaybes_spec (ms : list maybe) :
  mergeMaybes ms =
  if existsb maybe_isNothing ms then Nothing else Just (VArr (map maybe_value ms)).
Proof.
  unfold mergeMaybes. rewrite mergeMaybes_from_Some.
  destruct (existsb maybe_isNothing ms); reflexivity.
Qed.

Lemma validateEithers_from (input : val) (fns : list (val -> either val)) (acc : option (list val)) :
  fold_left (validateEithers_step input) fns acc =
  match acc, failure_payloads (map (fun f => f input) fns) with
  | None, [] => None
  | None, ys => Some ys
  | Some xs, ys => Some (xs ++ ys)%list
  end.
Proof.
  revert acc. induction fns as [|f fns IH]; intro acc; simpl.
  - destruct acc; [rewrite app_nil_r|]; reflexivity.
  - rewrite IH. unfold validateEithers_step, failure_payloads. simpl.
    destruct (isFailure (f input)); simpl.
    + destruct acc; [rewrite <- app_assoc|]; reflexivity.
    + reflexivity.
Qed.

(** [validateEithers(...fns)(input)] is [Success(input)] when every
    function gives a [Success], and otherwise [Failure] of the array of the
    [Failure] payloads of all failing functions, in order. *)
Theorem validateEithers_spec (fns : list (val -> either val)) (input : val) :
  validateEithers fns input =
  match failure_payloads (map (fun f => f input) fns) with
  | [] => Success input
  | ys => Failure (VArr ys)
  end.
Proof.
  unfold validateEithers. rewrite validateEithers_from.
  destruct (failure_payloads _); reflexivity.
Qed.

(** [Either.try(fn)] is [Success] of the result when [fn] returns; when [fn]
    throws an [Error] or other value, it is [Failure] of its truthy
    [message], or of the value itself; when [fn] throws [null] or
    [undefined], reading [error.message] makes [Either.try] itself throw. *)
Theorem Either_try_spec {St} (fn : M St val) (s : St) :
  Either_try fn s =
  match fn s with
  | (Ok v, s') => (Ok (Success v), s')
  | (Throw error, s') =>
      match error with
      | VUndefined | VNull => (Throw TypeError, s')
      | VObj props =>
          let m := get_prop "message" props in
          (Ok (Failure (if truthy m then m else error)), s')
      | _ => (Ok (Failure error), s')
      end
  end.
Proof.
  unfold Either_try, catch, bind. destruct (fn s) as [[v|error] s']; [reflexivity|].
  destruct error; reflexivity.
Qed.

(** [syncEffectToMaybe(e)] never throws: it is [Maybe.of] of the value
    [e.trigger()] returns, and [Nothing] (the error dropped) when it throws. *)
Theorem syncEffectToMaybe_spec {St} (e : SyncEffect St val) (s : St) :
  syncEffectToMaybe e s =
  match trigger e VUndefined s with
  | (Ok v, s') => (Ok (if length_absent v then Nothing else Just v), s')
  | (Throw _, s') => (Ok Nothing, s')
  end.
Proof.
  unfold syncEffectToMaybe, catch, bind. destruct (trigger e VUndefined s) as [[v|err] s'];
    [|reflexivity].
  rewrite Maybe_of_classification. reflexivity.
Qed.

(** Converting an Either to a SyncEffect and back with [syncEffectToEither]
    gives it back, for a [Success] and for a [Failure] whose payload has no
    truthy [message] (not [null] or [undefined]); the state is untouched. *)
Theorem either_syncEffect_roundtrip {St} (e : either val) (s : St)
  (Hplain : plain_failure e = true) :
  syncEffectToEither (eitherToSyncEffect e) s = (Ok e, s).
Proof.
  destruct e as [error|v]; [|reflexivity].
  unfold syncEffectToEither, eitherToSyncEffect, either_fold. simpl.
  unfold Either_try, catch, bind, throw, lift_option.
  destruct error; simpl in Hplain; try discriminate; simpl;
    try (apply negb_true_iff in Hplain; rewrite Hplain); reflexivity.
Qed.

Lemma either_syncEffect_roundtrip_witness :
  plain_failure (Failure (VStr "I am an error.")) = true /\
  syncEffectToEither (eitherToSyncEffect (Failure (VStr "I am an error."))) tt
  = (Ok (Failure (VStr "I am an error.")), tt).
Proof.
  split; [reflexivity|].
  apply (either_syncEffect_roundtrip (Failure (VStr "I am an error.")) tt). reflexivity.
Defined.

(** A Maybe built by [Maybe.of] survives [maybeToEither] then
    [eitherToMaybe]; [Nothing] becomes [Failure('Maybe is Nothing.')] on
    the way. *)
Theorem maybe_either_roundtrip (v : val) :
  maybeToEither Nothing = Failure (VStr "Maybe is Nothing.") /\
  match Maybe_of v with
  | Some m => eitherToMaybe (maybeToEither m) = Some m
  | None => False
  end.
Proof.
  split; [reflexivity|].
  rewrite Maybe_of_classification.
  destruct (length_absent v) eqn:Ha; [reflexivity|].
  unfold maybeToEither, maybe_fold, eitherToMaybe, either_fold. simpl.
  rewrite Maybe_of_classification, Ha. reflexivity.
Qed.

(** A Maybe built by [Maybe.of] survives [maybeToSyncEffect] then
    [syncEffectToMaybe], without touching the state; [Nothing] becomes an
    effect throwing ['Maybe is Nothing.']. *)
Theorem maybe_syncEffect_roundtrip {St} (v : val) (s : St) :
  trigger (maybeToSyncEffect (St := St) Nothing) VUndefined s
    = (Throw (VStr "Maybe is Nothing."), s) /\
  match Maybe_of v with
  | Some m => syncEffectToMaybe (maybeToSyncEffect m) s = (Ok m, s)
  | None => False
  end.
Proof.
  split; [reflexivity|].
  rewrite Maybe_of_classification.
  destruct (length_absent v) eqn:Ha; [reflexivity|].
  rewrite syncEffectToMaybe_spec. simpl. rewrite Ha. reflexivity.
Qed.

Lemma bind_assoc {St A B C} (m : M St A) (k : A -> M St B) (h : B -> M St C) (s : St) :
  bind (bind m k) h s = bind m (fun a => bind (k a) h) s.
Proof. unfold bind. destruct (m s) as [[a|e] s']; reflexivity. Qed.

Lemma bind_ret_r {St A} (m : M St A) (s : St) : bind m ret s = m s.
Proof. unfold bind, ret. destruct (m s) as [[a|e] s']; reflexivity. Qed.

(** [flatMap] on [Maybe.of(v)] runs the function on [v] when [v] is
    present, and gives [Nothing] without running it when [v] is absent. *)
Theorem Maybe_of_flatMap {St} (v : val) (fn : val -> M St maybe) (s : St) :
  match Maybe_of v with
  | Some m => maybe_flatMap m fn s = if length_absent v then (Ok Nothing, s) else fn v s
  | None => False
  end.
Proof.
  rewrite Maybe_of_classification. destruct (length_absent v); reflexivity.
Qed.

(** [flatMap] is associative on Maybe and on Either:
    [m.flatMap(f).flatMap(g)] behaves as [m.flatMap(x => f(x).flatMap(g))]. *)
Theorem flatMap_assoc {St} :
  (forall (m : maybe) (f g : val -> M St maybe) (s : St),
      (x <- maybe_flatMap m f ;; maybe_flatMap x g) s =
      maybe_flatMap m (fun v => y <- f v ;; maybe_flatMap y g) s) /\
  (forall (e : either val) (f g : val -> M St (either val)) (s : St),
      (x <- either_flatMap e f ;; either_flatMap x g) s =
      either_flatMap e (fun v => y <- f v ;; either_flatMap y g) s).
Proof. split; [intros [|v] f g s|intros [v|v] f g s]; reflexivity. Qed.

(** Either's [map] composes: [e.map(f).map(g)] behaves as
    [e.map(x => g(f(x)))], for both variants; a [Success] payload is never
    re-classified. *)
Theorem either_map_compose {St} (e : either val) (f g : val -> M St val) (s : St) :
  (x <- either_map e f ;; either_map x g) s = either_map e (fun v => y <- f v ;; g y) s.
Proof.
  destruct e as [v|v]; [reflexivity|]. simpl.
  unfold bind, ret, Either_of. destruct (f v s) as [[y|err] s']; [|reflexivity].
  simpl. unfold bind. destruct (g y s') as [[z|err] s'']; reflexivity.
Qed.

(** Maybe's [map] composes as long as the first function never returns a
    value [Maybe.of] classifies absent. *)
Theorem maybe_map_compose {St} (m : maybe) (f g : val -> M St val) (s : St)
  (Hf : forall x s0, match f x s0 with
                     | (Ok y, _) => length_absent y = false
                     | (Throw _, _) => True
                     end) :
  (x <- maybe_map m f ;; maybe_map x g) s = maybe_map m (fun v => y <- f v ;; g y) s.
Proof.
  destruct m as [|v]; [reflexivity|].
  unfold bind at 1. rewrite maybe_map_Just_unfold.
  rewrite maybe_map_Just_unfold. unfold bind.
  specialize (Hf v s). destruct (f v s) as [[y|err] s']; [|reflexivity].
  rewrite Hf. rewrite maybe_map_Just_unfold. reflexivity.
Qed.

Lemma maybe_map_compose_witness :
  (forall x s0, match (fun _ : val => @ret unit val (VStr "a")) x s0 with
                | (Ok y, _) => length_absent y = false
                | (Throw _, _) => True
                end) /\
  (x <- maybe_map (Just (VNum 1)) (fun _ => ret (VStr "a")) ;; maybe_map x identity) tt =
  maybe_map (Just (VNum 1)) (fun v => y <- (fun _ => @ret unit val (VStr "a")) v ;; identity y) tt.
Proof.
  split; [intros x s0; reflexivity|].
  apply (maybe_map_compose (Just (VNum 1)) (fun _ => ret (VStr "a")) identity tt).
  intros x s0. reflexivity.
Defined.

(** A SyncEffect's [map] keeps the identity and composes: triggering
    [e.map(identity)] is triggering [e], and [e.map(f).map(g)] triggers as
    [e.map(x => g(f(x)))]. *)
Theorem sync_map_functor {St} (e : SyncEffect St val) (f g : val -> M St val) (a : val) (s : St) :
  trigger (sync_map e identity) a s = trigger e a s /\
  trigger (sync_map (sync_map e f) g) a s = trigger (sync_map e (fun x => y <- f x ;; g y)) a s.
Proof.
  split; simpl.
  - apply bind_ret_r.
  - apply bind_assoc.
Qed.

(** An AsyncEffect's [map] keeps the identity and composes. *)
Theorem async_map_functor {St} (e : AsyncEffect St) (f g : val -> M St val)
  (reject resolve : callback St) (s : St) :
  atrigger (async_map e identity) reject resolve s = atrigger e reject resolve s /\
  atrigger (async_map (async_map e f) g) reject resolve s =
  atrigger (async_map e (fun x => y <- f x ;; g y)) reject resolve s.
Proof.
  split; simpl; [reflexivity|].
  f_equal. apply functional_extensionality. intro a.
  apply functional_extensionality. intro s0. symmetry. apply bind_assoc.
Qed.

(** Triggering [e.ap(f)] on SyncEffects triggers [e] (the function), then
    [f] (the argument), then applies one to the other; an exception stops
    the sequence. *)
Theorem sync_ap_order {St} (apply : val -> val -> M St val)
  (e f : SyncEffect St val) (a : val) (s : St) :
  trigger (sync_ap apply e f) a s =
  (fv <- trigger e VUndefined ;; x <- trigger f VUndefined ;; apply fv x) s.
Proof.
  simpl. unfold bind at 1 3. unfold bind at 1. simpl.
  destruct (trigger e VUndefined s) as [[fv|err] s1]; reflexivity.
Qed.

(** [liftA2(fn)(ap1)(ap2)] on Either gives the first [Failure]: [ap1]'s
    without calling [fn], else [ap2]'s after [fn(a)]; on two [Success]es it
    is [Success(fn(a)(b))]. *)
Theorem liftA2_either_spec {St} (apply : val -> val -> M St val) (fn : val) (s : St) :
  (forall (e : val) (ap2 : either val),
      liftA2_either apply fn (Failure e) ap2 s = (Ok (Failure e), s)) /\
  (forall a e : val,
      liftA2_either apply fn (Success a) (Failure e) s =
      match apply fn a s with
      | (Ok _, s') => (Ok (Failure e), s')
      | (Throw err, s') => (Throw err, s')
      end) /\
  (forall a b : val,
      liftA2_either apply fn (Success a) (Success b) s =
      (g <- apply fn a ;; r <- apply g b ;; ret (Success r)) s).
Proof.
  split; [|split]; intros; unfold liftA2_either, bind; simpl; unfold bind, ret.
  - reflexivity.
  - destruct (apply fn a s) as [[g|err] s']; reflexivity.
  - destruct (apply fn a s) as [[g|err] s']; reflexivity.
Qed.

(** [liftA2(fn)(ap1)(ap2)] on Maybe: [Nothing] first gives [Nothing] without
    calling [fn]; otherwise [fn(a)] is re-classified by [Maybe.of] (a
    partial application declaring no parameter gives [Nothing]), then
    mapped over [ap2]. *)
Theorem liftA2_maybe_spec {St} (apply : val -> val -> M St val) (fn : val) (s : St) :
  (forall ap2 : maybe, liftA2_maybe apply fn Nothing ap2 s = (Ok Nothing, s)) /\
  (forall (a : val) (ap2 : maybe),
      liftA2_maybe apply fn (Just a) ap2 s =
      match apply fn a s with
      | (Ok g, s1) => if length_absent g then (Ok Nothing, s1) else maybe_map ap2 (apply g) s1
      | (Throw err, s1) => (Throw err, s1)
      end).
Proof.
  split; intros; [reflexivity|].
  unfold liftA2_maybe, bind at 1. rewrite maybe_map_Just_unfold.
  destruct (apply fn a s) as [[g|err] s1]; [|reflexivity].
  destruct (length_absent g); reflexivity.
Qed.
